(** * Character offsets of an XPath match in flattened HTML text

    Verification of [xpath_to_offsets] from [src/data/xpath_converter.py].

    The function parses an HTML string with lxml, evaluates an XPath
    expression, stringifies the first result, walks [doc.itertext()] to
    build a dictionary from fragment text to [(start, end)] offsets, looks
    the stringified result up in it and optionally narrows the span to a
    substring.

    The parser and the XPath engine belong to lxml, not to this repository:
    the function is embedded over an arbitrary pair of them (Section
    [OffsetResolver]); the Python objects the function manipulates itself
    (trees, XPath values, strings, the dictionary) are modelled concretely.
    Module [Mini] gives a small executable parser and evaluator on which the
    scenarios of the specification are run. *)

From Stdlib Require Import ZArith Ascii String List HexString Lia.
From Stdlib Require Import Floats.SpecFloat.
From stdpp Require Import gmap strings list.

Set Warnings "-register-all".
Local Open Scope Z_scope.

(** ** Python strings and integers

    A Python [str] is a sequence of characters; one [ascii] stands for one
    character.  Python integers are unbounded: [Z]. *)

Module Py.

(** [len(s)] *)
Definition len (s : string) : Z := Z.of_nat (String.length s).

(** [bool(s)]: a string is true iff it is not empty. *)
Definition truthy (s : string) : bool :=
  match s with EmptyString => false | String _ _ => true end.

(** [s.find(sub)], scanning from index [i]: the lowest index at which
    [sub] starts, or [-1]. *)
Fixpoint find_from (i : Z) (s sub : string) : Z :=
  if String.prefix sub s then i
  else match s with
       | EmptyString => -1
       | String _ s' => find_from (i + 1) s' sub
       end.

Definition find (s sub : string) : Z := find_from 0 s sub.

(** [s[i:j]] with the usual treatment of negative and out-of-range
    indices. *)
Definition clamp (n i : Z) : Z :=
  let i := if i <? 0 then i + n else i in
  Z.max 0 (Z.min n i).

Definition slice (s : string) (i j : Z) : string :=
  let i := clamp (len s) i in
  let j := clamp (len s) j in
  String.substring (Z.to_nat i) (Z.to_nat (j - i)) s.

(** The concatenation of a list of strings, in order. *)
Definition join (l : list string) : string :=
  fold_right String.append EmptyString l.

(** [sub in s], as a proposition. *)
Definition occurs (sub s : string) : Prop :=
  exists pre post, s = pre +:+ sub +:+ post.

End Py.

(** ** The lxml objects the function touches *)

(** An element as lxml presents it: tag, leading text, children and the
    tail text that follows the closing tag.  [None] is Python's [None]. *)
Inductive Element : Type :=
  Elem (tag : string) (text : option string)
       (children : list Element) (tail : option string).

Definition tag_of (e : Element) : string :=
  match e with Elem t _ _ _ => t end.
Definition text_of (e : Element) : option string :=
  match e with Elem _ t _ _ => t end.
Definition children_of (e : Element) : list Element :=
  match e with Elem _ _ c _ => c end.
Definition tail_of (e : Element) : option string :=
  match e with Elem _ _ _ t => t end.

Definition opt_list {A} (o : option A) : list A :=
  match o with Some a => a :: nil | None => nil end.

(** Text of a subtree in document order, each element followed by its
    tail. *)
Fixpoint subtree_text (e : Element) : list string :=
  match e with
  | Elem _ txt kids tl =>
      opt_list txt ++ flat_map subtree_text kids ++ opt_list tl
  end.

(** [doc.itertext()]: the text and tail of every element below [doc] in
    document order; the tail of [doc] itself is not part of it, and
    [None] is skipped. *)
Definition itertext (doc : Element) : list string :=
  match doc with
  | Elem _ txt kids _ => opt_list txt ++ flat_map subtree_text kids
  end.

(** One entry of the list an XPath node-set evaluates to: an element, or
    a string result (a text node or an attribute value, which lxml returns
    as subclasses of [str]). *)
Inductive xpath_item : Type :=
  | XElement (e : Element)
  | XText (s : string).

(** The value of [doc.xpath(...)]: a list for node-sets, and a bare
    string, float or bool for the other XPath types. *)
Inductive xpath_value : Type :=
  | XList (items : list xpath_item)
  | XString (s : string)
  | XNumber (f : spec_float)
  | XBoolean (b : bool).

(** [repr] of an element: lxml prints the tag and the address of the
    Python object, [<Element p at 0x7f...>]; elements define no [__str__]. *)
Definition repr_element (addr : N) (e : Element) : string :=
  "<Element " +:+ tag_of e +:+ " at " +:+ HexString.of_N addr +:+ ">".

(** [str(item)], for an item whose Python object lives at [addr]. *)
Definition str (addr : N) (item : xpath_item) : string :=
  match item with
  | XElement e => repr_element addr e
  | XText s => s
  end.

(** ** Exceptions and results *)

Inductive exn : Type :=
  | ParserError (msg : string)
  | XPathEvalError (msg : string)
  | TypeError (msg : string)
  | ValueError (msg : string)
  | KeyError (key : string).

(** The two [ValueError]s of the function, with the messages its f-strings
    build, and the [KeyError] of the dictionary lookup. *)
Definition NoMatchError (xpath : string) : exn :=
  ValueError ("No node found for XPath: " +:+ xpath).

Definition SubstringNotFoundError (substring node_text : string) : exn :=
  ValueError ("Substring '" +:+ substring +:+ "' not found in node '"
              +:+ node_text +:+ "'").

Definition LookupFailureError (node_text : string) : exn :=
  KeyError node_text.

Inductive result (A : Type) : Type :=
  | Return (a : A)
  | Raise (e : exn).
Arguments Return {A} a.
Arguments Raise {A} e.

Definition bind {A B} (r : result A) (k : A -> result B) : result B :=
  match r with
  | Return a => k a
  | Raise e => Raise e
  end.

Notation "'let*' x ':=' c 'in' k" := (bind c (fun x => k))
  (at level 10, x name, c at level 100, k at level 200).

(** [not nodes] *)
Definition falsy (v : xpath_value) : bool :=
  match v with
  | XList items => match items with nil => true | _ => false end
  | XString s => negb (Py.truthy s)
  | XNumber f => match f with S754_zero _ => true | _ => false end
  | XBoolean b => negb b
  end.

(** [nodes[0]], reached only when [nodes] is true. *)
Definition getitem0 (v : xpath_value) : result xpath_item :=
  match v with
  | XList (item :: _) => Return item
  | XList nil => Raise (TypeError "unreachable")
  | XString (String c _) => Return (XText (String c EmptyString))
  | XString EmptyString => Raise (TypeError "unreachable")
  | XNumber _ => Raise (TypeError "'float' object is not subscriptable")
  | XBoolean _ => Raise (TypeError "'bool' object is not subscriptable")
  end.

(** ** The traversal loop *)

Record loop_state : Type := LoopState {
  flat_text : string;
  offsets : gmap string (Z * Z);
  pos : Z
}.

Definition loop_init : loop_state :=
  {| flat_text := ""; offsets := ∅; pos := 0 |}.

(** The body of [for elem in doc.itertext()]. *)
Definition loop_body (st : loop_state) (elem : string) : loop_state :=
  let start := pos st in
  let flat := flat_text st +:+ elem in
  let end_ := pos st + Py.len elem in
  {| flat_text := flat;
     offsets := <[elem := (start, end_)]> (offsets st);
     pos := end_ |}.

Definition traverse (frags : list string) : loop_state :=
  fold_left loop_body frags loop_init.

(** ** The function *)

Section OffsetResolver.

(** [html.fromstring] and [doc.xpath], as lxml provides them. *)
Variable fromstring : string -> result Element.
Variable xpath_eval : Element -> string -> result xpath_value.

(** [dict[key]] *)
Definition dict_get (d : gmap string (Z * Z)) (key : string)
  : result (Z * Z) :=
  match d !! key with
  | Some v => Return v
  | None => Raise (LookupFailureError key)
  end.

(** [addr] is the address of the object [nodes[0]], which [str] shows
    when that object is an element. *)
Definition xpath_to_offsets (addr : N) (html_string xpath : string)
    (substring : option string) : result (Z * Z) :=
  let* doc := fromstring html_string in
  let* nodes := xpath_eval doc xpath in
  if falsy nodes then Raise (NoMatchError xpath) else
  let* first := getitem0 nodes in
  let node_text := str addr first in
  let st := traverse (itertext doc) in
  let* span := dict_get (offsets st) node_text in
  let '(global_start, global_end) := span in
  match substring with
  | Some sub =>
      if Py.truthy sub then
        let local_index := Py.find node_text sub in
        if local_index =? -1 then
          Raise (SubstringNotFoundError sub node_text)
        else
          let start_offset := global_start + local_index in
          let end_offset := start_offset + Py.len sub in
          Return (start_offset, end_offset)
      else Return (global_start, global_end)
  | None => Return (global_start, global_end)
  end.

End OffsetResolver.

(** ** A small executable parser and XPath evaluator

    [Mini.fromstring] and [Mini.xpath_eval] follow [lxml.html.fromstring]
    and [doc.xpath] on a fragment that is large enough for the scenarios of
    the specification:

    - markup: one top-level [div] or [p] holding text, the character
      references [&lt;], [&gt;], [&amp;] and properly nested [div], [p],
      [span], [b], [i] elements without attributes, no block element inside
      [p] or an inline element, no text made of white space only;
    - expressions: [//name], [//name[k]], either followed by [/text()],
      and [boolean(...)] around one of these.

    The empty document raises [ParserError], as in lxml.  Any other input
    is outside the fragment and is answered with an exception; nothing is
    claimed about lxml there. *)

Module Mini.

Local Open Scope char_scope.
Local Open Scope nat_scope.

Inductive token : Type :=
  | TOpen (name : string)
  | TClose (name : string)
  | TText (s : string).

Definition is_lower (c : ascii) : bool :=
  (97 <=? nat_of_ascii c) && (nat_of_ascii c <=? 122).
Definition is_digit (c : ascii) : bool :=
  (48 <=? nat_of_ascii c) && (nat_of_ascii c <=? 57).
Definition is_space (c : ascii) : bool :=
  match nat_of_ascii c with 32 | 9 | 10 | 13 => true | _ => false end.

Definition snoc (s : string) (c : ascii) : string :=
  s +:+ String c EmptyString.

Inductive lex_mode : Type :=
  | InText (acc : string)
  | InEntity (acc ent : string)
  | InTagStart
  | InOpen (name : string)
  | InClose (name : string).

Definition text_token (acc : string) : list token :=
  match acc with EmptyString => nil | _ => TText acc :: nil end.

Definition entity (ent : string) : option ascii :=
  if String.eqb ent "lt" then Some "<"
  else if String.eqb ent "gt" then Some ">"
  else if String.eqb ent "amp" then Some "&"
  else None.

Fixpoint lex (mode : lex_mode) (s : string) : option (list token) :=
  match s with
  | EmptyString =>
      match mode with
      | InText acc => Some (text_token acc)
      | _ => None
      end
  | String c s' =>
      match mode with
      | InText acc =>
          if Ascii.eqb c "<" then
            app (text_token acc) <$> lex InTagStart s'
          else if Ascii.eqb c "&" then lex (InEntity acc EmptyString) s'
          else lex (InText (snoc acc c)) s'
      | InEntity acc ent =>
          if Ascii.eqb c ";" then
            match entity ent with
            | Some d => lex (InText (snoc acc d)) s'
            | None => None
            end
          else if is_lower c then lex (InEntity acc (snoc ent c)) s'
          else None
      | InTagStart =>
          if Ascii.eqb c "/" then lex (InClose EmptyString) s'
          else if is_lower c then lex (InOpen (String c EmptyString)) s'
          else None
      | InOpen name =>
          if Ascii.eqb c ">" then cons (TOpen name) <$> lex (InText EmptyString) s'
          else if is_lower c || is_digit c then lex (InOpen (snoc name c)) s'
          else None
      | InClose name =>
          if Ascii.eqb c ">" then cons (TClose name) <$> lex (InText EmptyString) s'
          else if is_lower c || is_digit c then lex (InClose (snoc name c)) s'
          else None
      end
  end.

(** An element under construction: its tag, its text so far and its
    children so far, last one first. *)
Record frame : Type := Frame {
  ftag : string;
  ftext : option string;
  fkids : list Element
}.

Definition add_text (s : string) (f : frame) : frame :=
  match fkids f with
  | nil => Frame (ftag f) (Some (default EmptyString (ftext f) +:+ s)) nil
  | Elem t x k tl :: rest =>
      Frame (ftag f) (ftext f)
            (Elem t x k (Some (default EmptyString tl +:+ s)) :: rest)
  end.

Definition add_child (e : Element) (f : frame) : frame :=
  Frame (ftag f) (ftext f) (e :: fkids f).

Definition close (f : frame) : Element :=
  Elem (ftag f) (ftext f) (rev (fkids f)) None.

Fixpoint build (toks : list token) (cur : frame) (stack : list frame)
  : option frame :=
  match toks with
  | nil => match stack with nil => Some cur | _ => None end
  | TText s :: r => build r (add_text s cur) stack
  | TOpen t :: r => build r (Frame t None nil) (cur :: stack)
  | TClose t :: r =>
      match stack with
      | outer :: stack' =>
          if String.eqb t (ftag cur)
          then build r (add_child (close cur) outer) stack'
          else None
      | nil => None
      end
  end.

Definition block_tag (t : string) : bool :=
  String.eqb t "div" || String.eqb t "p".
Definition inline_tag (t : string) : bool :=
  String.eqb t "span" || String.eqb t "b" || String.eqb t "i".

Fixpoint all_space (s : string) : bool :=
  match s with
  | EmptyString => true
  | String c s' => is_space c && all_space s'
  end.

Definition text_ok (o : option string) : bool :=
  match o with Some s => negb (all_space s) | None => true end.

(** The nesting the parser keeps as written. *)
Fixpoint supported (e : Element) : bool :=
  match e with
  | Elem t x kids tl =>
      (block_tag t || inline_tag t) && text_ok x && text_ok tl
      && forallb (fun c => (String.eqb t "div" || inline_tag (tag_of c))
                           && supported c) kids
  end.

Definition outside_fragment : string := "outside the modelled fragment".

(** [lxml.html.fromstring]: a fragment made of a single element is
    returned as that element. *)
Definition fromstring (html_string : string) : result Element :=
  match html_string with
  | EmptyString => Raise (ParserError "Document is empty")
  | _ =>
      match lex (InText EmptyString) html_string with
      | Some toks =>
          match build toks (Frame "body" None nil) nil with
          | Some (Frame _ None (Elem t x kids None :: nil)) =>
              if block_tag t && supported (Elem t x kids None)
              then Return (Elem t x kids None)
              else Raise (ParserError outside_fragment)
          | _ => Raise (ParserError outside_fragment)
          end
      | None => Raise (ParserError outside_fragment)
      end
  end.

(** The location paths of the fragment: [//name], an optional position
    predicate, an optional [/text()] step. *)
Record path : Type := Path {
  p_name : string;
  p_index : option nat;
  p_text : bool
}.

Fixpoint strip_prefix (p s : string) : option string :=
  match p, s with
  | EmptyString, _ => Some s
  | String a p', String b s' =>
      if Ascii.eqb a b then strip_prefix p' s' else None
  | String _ _, EmptyString => None
  end.

Fixpoint span_of (f : ascii -> bool) (s : string) : string * string :=
  match s with
  | EmptyString => (EmptyString, EmptyString)
  | String c s' =>
      if f c then let '(a, b) := span_of f s' in (String c a, b)
      else (EmptyString, s)
  end.

Fixpoint nat_of_digits (acc : nat) (s : string) : nat :=
  match s with
  | EmptyString => acc
  | String c s' => nat_of_digits (10 * acc + (nat_of_ascii c - 48)) s'
  end.

Definition parse_tail (name : string) (idx : option nat) (s : string)
  : option path :=
  if String.eqb s "" then Some (Path name idx false)
  else if String.eqb s "/text()" then Some (Path name idx true)
  else None.

Definition parse_path (s : string) : option path :=
  s1 ← strip_prefix "//" s;
  let '(name, r1) := span_of (fun c => is_lower c || is_digit c) s1 in
  if String.eqb name "" then None else
  match strip_prefix "[" r1 with
  | Some r =>
      let '(ds, r') := span_of is_digit r in
      if String.eqb ds "" then None else
      r'' ← strip_prefix "]" r';
      parse_tail name (Some (nat_of_digits 0 ds)) r''
  | None => parse_tail name None r1
  end.

Section Select.
Variable p : path.

Definition hit (c : Element) (n : nat) : bool :=
  String.eqb (tag_of c) (p_name p)
  && match p_index p with None => true | Some k => Nat.eqb k n end.

(** The results below [e] in document order; [sel] tells whether [e]
    itself is one of the selected elements. *)
Fixpoint walk (sel : bool) (e : Element) : list xpath_item :=
  match e with
  | Elem _ x kids _ =>
      (if p_text p && sel then XText <$> opt_list x else nil)
      ++ (fix go (seen : nat) (kids : list Element) : list xpath_item :=
            match kids with
            | nil => nil
            | c :: r =>
                let n := if String.eqb (tag_of c) (p_name p)
                         then S seen else seen in
                let here := hit c n in
                (if negb (p_text p) && here then XElement c :: nil else nil)
                ++ walk here c
                ++ (if p_text p && sel then XText <$> opt_list (tail_of c)
                    else nil)
                ++ go n r
            end) 0 kids
  end.
End Select.

(** The document the parser built around the returned element. *)
Definition document (doc : Element) : Element :=
  Elem "" None
       (Elem "html" None (Elem "body" None (doc :: nil) None :: nil) None
        :: nil) None.

Definition select (p : path) (doc : Element) : list xpath_item :=
  walk p false (document doc).

Definition is_nil {A} (l : list A) : bool :=
  match l with nil => true | _ => false end.

Fixpoint strip_last (c : ascii) (s : string) : option string :=
  match s with
  | EmptyString => None
  | String a EmptyString => if Ascii.eqb a c then Some EmptyString else None
  | String a s' => String a <$> strip_last c s'
  end.

Definition xpath_eval (doc : Element) (xpath : string)
  : result xpath_value :=
  match strip_prefix "boolean(" xpath with
  | Some r =>
      match strip_last ")" r ≫= parse_path with
      | Some p => Return (XBoolean (negb (is_nil (select p doc))))
      | None => Raise (XPathEvalError outside_fragment)
      end
  | None =>
      match parse_path xpath with
      | Some p => Return (XList (select p doc))
      | None => Raise (XPathEvalError outside_fragment)
      end
  end.

End Mini.

(** The call of the function on the executable parser and evaluator. *)
Definition run (addr : N) (html_string xpath : string)
    (substring : option string) : result (Z * Z) :=
  xpath_to_offsets Mini.fromstring Mini.xpath_eval addr html_string xpath
                   substring.

Definition doc_A : string := "<div><p>Hello</p><p>World</p></div>".
Definition doc_D : string := "<div><p>Hello World</p></div>".
Definition doc_F : string := "<div><p>Same</p><p>Same</p></div>".


(** ** Facts about Python strings *)

Section StringFacts.

Local Arguments String.append !_ _ / : simpl nomatch.

Lemma length_app (s t : string) :
  String.length (s +:+ t) = (String.length s + String.length t)%nat.
Proof. induction s as [|c s IH]; simpl; [reflexivity | now rewrite IH]. Qed.

Lemma len_app (s t : string) : Py.len (s +:+ t) = Py.len s + Py.len t.
Proof. unfold Py.len. rewrite length_app. lia. Qed.

Lemma len_nonneg (s : string) : 0 <= Py.len s.
Proof. unfold Py.len. lia. Qed.

Lemma app_empty_r (s : string) : s +:+ "" = s.
Proof. induction s as [|c s IH]; simpl; [reflexivity | now rewrite IH]. Qed.

Lemma app_assoc (s t u : string) : (s +:+ t) +:+ u = s +:+ t +:+ u.
Proof. induction s as [|c s IH]; simpl; [reflexivity | now rewrite IH]. Qed.

Lemma substring_0_0 (s : string) : String.substring 0 0 s = "".
Proof. destruct s; reflexivity. Qed.

Lemma substring_prefix (s t : string) :
  String.substring 0 (String.length s) (s +:+ t) = s.
Proof.
  induction s as [|c s IH]; simpl; [apply substring_0_0 | now rewrite IH].
Qed.

Lemma substring_skip (s t : string) (n m : nat) :
  String.substring (String.length s + n) m (s +:+ t) = String.substring n m t.
Proof. induction s as [|c s IH]; simpl; [reflexivity | exact IH]. Qed.

Lemma substring_app_l (s t : string) (n m : nat) :
  (n + m <= String.length s)%nat ->
  String.substring n m (s +:+ t) = String.substring n m s.
Proof.
  revert n m. induction s as [|c s IH]; intros n m H; simpl in *.
  - assert (n = 0%nat) by lia. assert (m = 0%nat) by lia. subst.
    apply substring_0_0.
  - destruct n as [|n].
    + destruct m as [|m]; [reflexivity |].
      f_equal. apply (IH 0%nat m). lia.
    + apply IH. lia.
Qed.

Lemma substring_substring (s : string) (n l a m : nat) :
  (a + m <= l)%nat ->
  String.substring a m (String.substring n l s) = String.substring (n + a) m s.
Proof.
  revert n l a m. induction s as [|c s IH]; intros n l a m H.
  - destruct n, l, a, m; reflexivity.
  - destruct n as [|n].
    + destruct l as [|l].
      * assert (a = 0%nat) by lia. assert (m = 0%nat) by lia. subst.
        reflexivity.
      * simpl. destruct a as [|a].
        -- destruct m as [|m]; [reflexivity |].
           f_equal. apply (IH 0%nat l 0%nat m). lia.
        -- apply (IH 0%nat l a m). lia.
    + simpl. apply IH. exact H.
Qed.

Lemma prefix_app (p s : string) :
  String.prefix p s = true <-> exists post, s = p +:+ post.
Proof.
  revert s. induction p as [|a p IH]; intros s.
  - split; [intros _; exists s; reflexivity | intros _; destruct s; reflexivity].
  - destruct s as [|b s]; simpl.
    + split; [discriminate | intros [post H]; discriminate].
    + destruct (ascii_dec a b) as [->|Hne].
      * rewrite IH. split; intros [post H]; exists post; congruence.
      * split; [discriminate | intros [post H]; congruence].
Qed.

Lemma slice_in_range (s : string) (i j : Z) :
  0 <= i <= j -> j <= Py.len s ->
  Py.slice s i j = String.substring (Z.to_nat i) (Z.to_nat (j - i)) s.
Proof.
  intros Hij Hj. unfold Py.slice, Py.clamp.
  destruct (Z.ltb_spec i 0); [lia |].
  destruct (Z.ltb_spec j 0); [lia |].
  rewrite !Z.min_r, !Z.max_r by lia. reflexivity.
Qed.

Lemma join_app (l1 l2 : list string) :
  Py.join (l1 ++ l2) = Py.join l1 +:+ Py.join l2.
Proof.
  induction l1 as [|x l1 IH]; simpl; [reflexivity |].
  now rewrite IH, app_assoc.
Qed.

Lemma find_from_unfold (i : Z) (s sub : string) :
  Py.find_from i s sub =
  if String.prefix sub s then i
  else match s with
       | EmptyString => -1
       | String _ s' => Py.find_from (i + 1) s' sub
       end.
Proof. destruct s; reflexivity. Qed.

(** What [find] returns: [-1] exactly when there is no occurrence, and
    otherwise the index of the first one. *)
Lemma find_from_spec (s sub : string) (i : Z) :
  0 <= i ->
  (Py.find_from i s sub = -1 /\ ~ Py.occurs sub s) \/
  (exists pre post, s = pre +:+ sub +:+ post /\
                    Py.find_from i s sub = i + Py.len pre).
Proof.
  revert i. induction s as [|c s IH]; intros i Hi;
    rewrite find_from_unfold.
  - destruct (String.prefix sub "") eqn:Hp.
    + right. apply prefix_app in Hp as [post Hp].
      exists "", post. split; [exact Hp | unfold Py.len; simpl; lia].
    + left. split; [reflexivity |].
      intros (pre & post & H). destruct pre; [| discriminate].
      simpl in H. assert (String.prefix sub "" = true) as Hq
        by (apply prefix_app; eauto). congruence.
  - destruct (String.prefix sub (String c s)) eqn:Hp.
    + right. apply prefix_app in Hp as [post Hp].
      exists "", post. split; [exact Hp | unfold Py.len; simpl; lia].
    + destruct (IH (i + 1)) as [[Hr Hno] | (pre & post & Hs & Hr)]; [lia | |].
      * left. split; [exact Hr |].
        intros (pre & post & H). destruct pre as [|a pre].
        -- assert (String.prefix sub (String c s) = true) as Hq
             by (apply prefix_app; eauto). congruence.
        -- apply Hno. exists pre, post. simpl in H. congruence.
      * right. exists (String c pre), post. split.
        -- simpl. now rewrite Hs.
        -- rewrite Hr. unfold Py.len. simpl String.length. lia.
Qed.

Lemma find_spec (s sub : string) :
  (Py.find s sub = -1 /\ ~ Py.occurs sub s) \/
  (exists pre post, s = pre +:+ sub +:+ post /\ Py.find s sub = Py.len pre).
Proof.
  destruct (find_from_spec s sub 0) as [H | (pre & post & H1 & H2)];
    [lia | left; exact H | right].
  exists pre, post. split; [exact H1 | unfold Py.find; lia].
Qed.

Lemma find_absent (s sub : string) :
  Py.find s sub = -1 <-> ~ Py.occurs sub s.
Proof.
  destruct (find_spec s sub) as [[H1 H2] | (pre & post & H1 & H2)].
  - tauto.
  - split.
    + intros H. pose proof (len_nonneg pre). lia.
    + intros H. exfalso. apply H. exists pre, post. exact H1.
Qed.

End StringFacts.

(** ** The traversal loop: what the dictionary holds *)

Section Traversal.

Local Arguments String.append !_ _ / : simpl nomatch.

Lemma substring_all (s : string) :
  String.substring 0 (String.length s) s = s.
Proof.
  rewrite <- (app_empty_r s) at 2. apply substring_prefix.
Qed.

Lemma slice_prefix (flat elem : string) (i j : Z) :
  0 <= i <= j -> j <= Py.len flat ->
  Py.slice (flat +:+ elem) i j = Py.slice flat i j.
Proof.
  intros Hij Hj. pose proof (len_nonneg elem).
  rewrite !slice_in_range by (rewrite ?len_app; lia).
  apply substring_app_l. unfold Py.len in Hj. lia.
Qed.

Lemma slice_suffix (flat elem : string) :
  Py.slice (flat +:+ elem) (Py.len flat) (Py.len flat + Py.len elem) = elem.
Proof.
  pose proof (len_nonneg flat). pose proof (len_nonneg elem).
  rewrite slice_in_range by (rewrite ?len_app; lia).
  replace (Z.to_nat (Py.len flat)) with (String.length flat + 0)%nat
    by (unfold Py.len; lia).
  replace (Z.to_nat (Py.len flat + Py.len elem - Py.len flat))
    with (String.length elem) by (unfold Py.len; lia).
  rewrite substring_skip. apply substring_all.
Qed.

(** The loop started from an arbitrary state. *)
Lemma loop_flat_text (frags : list string) (st : loop_state) :
  flat_text (fold_left loop_body frags st) = flat_text st +:+ Py.join frags.
Proof.
  revert st. induction frags as [|x frags IH]; intros st; simpl.
  - now rewrite app_empty_r.
  - rewrite IH. simpl. apply app_assoc.
Qed.

Lemma loop_pos (frags : list string) (st : loop_state) :
  pos (fold_left loop_body frags st) = pos st + Py.len (Py.join frags).
Proof.
  revert st. induction frags as [|x frags IH]; intros st; simpl.
  - unfold Py.len. simpl. lia.
  - rewrite IH. simpl. rewrite len_app. lia.
Qed.

Lemma loop_keeps (frags : list string) (st : loop_state) (key : string) :
  key ∉ frags ->
  offsets (fold_left loop_body frags st) !! key = offsets st !! key.
Proof.
  revert st. induction frags as [|x frags IH]; intros st Hnotin; simpl.
  - reflexivity.
  - apply not_elem_of_cons in Hnotin as [Hne Hnotin].
    rewrite IH by exact Hnotin. simpl.
    apply lookup_insert_ne. congruence.
Qed.

Lemma traverse_snoc (frags : list string) (elem : string) :
  traverse (frags ++ elem :: nil) = loop_body (traverse frags) elem.
Proof. unfold traverse. now rewrite fold_left_app. Qed.

Lemma traverse_app (pre post : list string) :
  traverse (pre ++ post) = fold_left loop_body post (traverse pre).
Proof. unfold traverse. apply fold_left_app. Qed.

Lemma traverse_flat_text (frags : list string) :
  flat_text (traverse frags) = Py.join frags.
Proof. unfold traverse. now rewrite loop_flat_text. Qed.

Lemma traverse_pos (frags : list string) :
  pos (traverse frags) = Py.len (Py.join frags).
Proof. unfold traverse. rewrite loop_pos. simpl. lia. Qed.

(** A recorded span is well formed when it lies inside the text built so
    far, has the length of its key and slices back to the key. *)
Definition span_ok (flat key : string) (sp : Z * Z) : Prop :=
  0 <= sp.1 /\ sp.2 = sp.1 + Py.len key /\ sp.2 <= Py.len flat
  /\ Py.slice flat sp.1 sp.2 = key.

Definition index_inv (st : loop_state) : Prop :=
  pos st = Py.len (flat_text st)
  /\ forall key sp, offsets st !! key = Some sp ->
                    span_ok (flat_text st) key sp.

Lemma loop_init_inv : index_inv loop_init.
Proof.
  split; [reflexivity |]. intros key sp H. simpl in H.
  rewrite lookup_empty in H. discriminate.
Qed.

Lemma loop_body_inv (st : loop_state) (elem : string) :
  index_inv st -> index_inv (loop_body st elem).
Proof.
  intros [Hpos Hall]. split; simpl.
  - rewrite len_app. lia.
  - intros key sp H. pose proof (len_nonneg elem) as He.
    pose proof (len_nonneg (flat_text st)) as Hf.
    destruct (decide (elem = key)) as [->|Hne].
    + rewrite lookup_insert_eq in H. injection H as <-.
      unfold span_ok. simpl. rewrite len_app, Hpos.
      repeat split; try lia. apply slice_suffix.
    + rewrite lookup_insert_ne in H by exact Hne.
      destruct (Hall key sp H) as (H0 & H1 & H2 & H3).
      pose proof (len_nonneg key).
      unfold span_ok. rewrite len_app.
      repeat split; try lia.
      rewrite slice_prefix by lia. exact H3.
Qed.

Lemma loop_inv (frags : list string) (st : loop_state) :
  index_inv st -> index_inv (fold_left loop_body frags st).
Proof.
  revert st. induction frags as [|x frags IH]; intros st H; simpl.
  - exact H.
  - apply IH, loop_body_inv, H.
Qed.

Lemma traverse_inv (frags : list string) : index_inv (traverse frags).
Proof. apply loop_inv, loop_init_inv. Qed.

(** The keys of the dictionary are exactly the fragments. *)
Lemma loop_lookup_some (frags : list string) (st : loop_state)
    (key : string) :
  key ∈ frags -> is_Some (offsets (fold_left loop_body frags st) !! key).
Proof.
  revert st. induction frags as [|x frags IH]; intros st Hin; simpl.
  - apply elem_of_nil in Hin. contradiction.
  - destruct (decide (key ∈ frags)) as [Hlater|Hlast].
    + apply IH, Hlater.
    + rewrite loop_keeps by exact Hlast.
      apply elem_of_cons in Hin as [->|Hin]; [| contradiction].
      simpl. rewrite lookup_insert_eq. eauto.
Qed.

Lemma traverse_lookup_none (frags : list string) (key : string) :
  offsets (traverse frags) !! key = None <-> key ∉ frags.
Proof.
  split.
  - intros Hnone Hin.
    destruct (loop_lookup_some frags loop_init key Hin) as [sp Hsp].
    unfold traverse in Hnone. congruence.
  - intros Hnotin. unfold traverse. rewrite loop_keeps by exact Hnotin.
    apply lookup_empty.
Qed.

(** The entry of a fragment is the span of its last occurrence. *)
Lemma traverse_last (pre post : list string) (key : string) :
  key ∉ post ->
  offsets (traverse (pre ++ key :: post)) !! key
  = Some (Py.len (Py.join pre), Py.len (Py.join pre) + Py.len key).
Proof.
  intros Hnotin. rewrite traverse_app. simpl.
  rewrite loop_keeps by exact Hnotin. simpl.
  rewrite lookup_insert_eq, traverse_pos. reflexivity.
Qed.

End Traversal.

(** ** Outcomes of a call *)

Definition is_success (out : result (Z * Z)) : Prop :=
  exists sp, out = Return sp.
Definition is_NoMatch (out : result (Z * Z)) : Prop :=
  exists xpath, out = Raise (NoMatchError xpath).
Definition is_LookupFailure (out : result (Z * Z)) : Prop :=
  exists key, out = Raise (LookupFailureError key).
Definition is_SubstringNotFound (out : result (Z * Z)) : Prop :=
  exists sub node_text, out = Raise (SubstringNotFoundError sub node_text).

(** [if substring:] is taken for a string that is present and not empty. *)
Definition given (substring : option string) : option string :=
  match substring with
  | Some sub => if Py.truthy sub then Some sub else None
  | None => None
  end.

Section Calls.

Local Arguments String.append !_ _ / : simpl nomatch.

Variable fromstring : string -> result Element.
Variable xpath_eval : Element -> string -> result xpath_value.

Lemma truthy_nonempty (s : string) : Py.truthy s = true <-> s <> "".
Proof. destruct s; simpl; split; congruence. Qed.

Lemma getitem0_not_falsy (nodes : xpath_value) (first : xpath_item) :
  getitem0 nodes = Return first -> falsy nodes = false.
Proof.
  destruct nodes as [[|x l]|[|c s]|f|b]; simpl; try discriminate; reflexivity.
Qed.

Lemma no_match_not_substring (xpath sub node_text : string) :
  NoMatchError xpath <> SubstringNotFoundError sub node_text.
Proof. unfold NoMatchError, SubstringNotFoundError. simpl. discriminate. Qed.

(** The call once the library has answered: the lookup and the optional
    narrowing are all that is left. *)
Definition finish (index : gmap string (Z * Z)) (node_text : string)
    (substring : option string) : result (Z * Z) :=
  match index !! node_text with
  | None => Raise (LookupFailureError node_text)
  | Some (global_start, global_end) =>
      match given substring with
      | Some sub =>
          if Py.find node_text sub =? -1
          then Raise (SubstringNotFoundError sub node_text)
          else Return (global_start + Py.find node_text sub,
                       global_start + Py.find node_text sub + Py.len sub)
      | None => Return (global_start, global_end)
      end
  end.

Lemma call_finish (addr : N) (html xpath : string) (sub : option string)
    (doc : Element) (nodes : xpath_value) (first : xpath_item) :
  fromstring html = Return doc ->
  xpath_eval doc xpath = Return nodes ->
  getitem0 nodes = Return first ->
  xpath_to_offsets fromstring xpath_eval addr html xpath sub
  = finish (offsets (traverse (itertext doc))) (str addr first) sub.
Proof.
  intros Hdoc Hnodes Hfirst. unfold xpath_to_offsets, finish, dict_get, given.
  rewrite Hdoc. simpl. rewrite Hnodes. simpl.
  rewrite (getitem0_not_falsy _ _ Hfirst), Hfirst. simpl.
  destruct (offsets (traverse (itertext doc)) !! str addr first)
    as [[gs ge]|]; simpl; [| reflexivity].
  destruct sub as [s|]; [| reflexivity].
  destruct (Py.truthy s); reflexivity.
Qed.

(** A call that returns went through every step. *)
Lemma call_returns (addr : N) (html xpath : string) (sub : option string)
    (sp : Z * Z) :
  xpath_to_offsets fromstring xpath_eval addr html xpath sub = Return sp ->
  exists doc nodes first,
    fromstring html = Return doc
    /\ xpath_eval doc xpath = Return nodes
    /\ getitem0 nodes = Return first.
Proof.
  unfold xpath_to_offsets. intros H.
  destruct (fromstring html) as [doc|e]; simpl in H; [| discriminate].
  destruct (xpath_eval doc xpath) as [nodes|e] eqn:Hnodes; simpl in H;
    [| discriminate].
  destruct (falsy nodes); [discriminate |].
  destruct (getitem0 nodes) as [first|e] eqn:Hfirst; simpl in H;
    [| discriminate].
  exists doc, nodes, first. auto.
Qed.

(** What [finish] returns, in terms of the recorded span. *)
Lemma finish_returns (index : gmap string (Z * Z)) (node_text : string)
    (sub : option string) (s e : Z) :
  finish index node_text sub = Return (s, e) ->
  exists gs ge, index !! node_text = Some (gs, ge)
    /\ match given sub with
       | Some t => exists pre post,
           node_text = pre +:+ t +:+ post
           /\ s = gs + Py.len pre /\ e = s + Py.len t
       | None => s = gs /\ e = ge
       end.
Proof.
  unfold finish. destruct (index !! node_text) as [[gs ge]|]; [| discriminate].
  intros H. exists gs, ge. split; [reflexivity |].
  destruct (given sub) as [t|].
  - destruct (Z.eqb_spec (Py.find node_text t) (-1)); [discriminate |].
    destruct (find_spec node_text t) as [[Hf _] | (pre & post & Hs & Hf)];
      [contradiction |].
    exists pre, post. rewrite Hf in H. injection H as <- <-. auto.
  - injection H as <- <-. auto.
Qed.

End Calls.

(** ** Properties of every call, whatever the parser and the evaluator *)

Section Properties.

Local Arguments String.append !_ _ / : simpl nomatch.

Variable fromstring : string -> result Element.
Variable xpath_eval : Element -> string -> result xpath_value.

(** C8 (P1, span ordering): every pair a call returns satisfies
    [0 <= start <= end]. *)
Theorem span_ordering (addr : N) (html xpath : string)
    (sub : option string) (s e : Z) :
  xpath_to_offsets fromstring xpath_eval addr html xpath sub = Return (s, e) ->
  0 <= s <= e.
Proof.
  intros H.
  destruct (call_returns _ _ _ _ _ _ _ H) as (doc & nodes & first & Hd & Hn & Hf).
  rewrite (call_finish _ _ _ _ _ _ _ _ _ Hd Hn Hf) in H.
  apply finish_returns in H as (gs & ge & Hidx & Hcase).
  destruct (traverse_inv (itertext doc)) as [_ Hall].
  destruct (Hall _ _ Hidx) as (H0 & H1 & _). simpl in H0, H1.
  pose proof (len_nonneg (str addr first)).
  destruct (given sub) as [t|].
  - destruct Hcase as (pre & post & _ & -> & ->).
    pose proof (len_nonneg pre). pose proof (len_nonneg t). lia.
  - destruct Hcase as [-> ->]. lia.
Qed.

(** C6 (P3, full span without substring): when no substring is passed and
    the call returns [(start, end)], [end - start] is the length of
    [node_text], the stringified first match. *)
Theorem full_span_length (addr : N) (html xpath : string) (doc : Element)
    (nodes : xpath_value) (first : xpath_item) (s e : Z) :
  fromstring html = Return doc ->
  xpath_eval doc xpath = Return nodes ->
  getitem0 nodes = Return first ->
  xpath_to_offsets fromstring xpath_eval addr html xpath None = Return (s, e) ->
  e - s = Py.len (str addr first).
Proof.
  intros Hd Hn Hf H.
  rewrite (call_finish _ _ _ _ _ _ _ _ _ Hd Hn Hf) in H.
  apply finish_returns in H as (gs & ge & Hidx & [-> ->]).
  destruct (traverse_inv (itertext doc)) as [_ Hall].
  destruct (Hall _ _ Hidx) as (_ & H1 & _). simpl in H1. lia.
Qed.

(** C2 (P2, substring narrowing), as the code has it: when a non-empty
    substring is passed and the call returns [(start, end)], then
    [end - start = len(substring)].  The empty string is excluded: the
    guard [if substring:] sends it to the other branch. *)
Theorem substring_span_length (addr : N) (html xpath sub : string) (s e : Z) :
  sub <> "" ->
  xpath_to_offsets fromstring xpath_eval addr html xpath (Some sub) = Return (s, e) ->
  e - s = Py.len sub.
Proof.
  intros Hne H.
  destruct (call_returns _ _ _ _ _ _ _ H) as (doc & nodes & first & Hd & Hn & Hf).
  rewrite (call_finish _ _ _ _ _ _ _ _ _ Hd Hn Hf) in H.
  apply finish_returns in H as (gs & ge & _ & Hcase).
  apply truthy_nonempty in Hne. simpl in Hcase. rewrite Hne in Hcase.
  destruct Hcase as (pre & post & _ & -> & ->). lia.
Qed.

(** C5 (P4, concatenation invariant), as the code has it: the flattened
    text, sliced at the returned [start:end], is the substring when a
    non-empty one was passed, and [node_text] when none or the empty
    string was passed.  Fragments with equal text do not disturb this. *)
Theorem result_slices_flat_text (addr : N) (html xpath : string)
    (sub : option string) (doc : Element) (nodes : xpath_value)
    (first : xpath_item) (s e : Z) :
  fromstring html = Return doc ->
  xpath_eval doc xpath = Return nodes ->
  getitem0 nodes = Return first ->
  xpath_to_offsets fromstring xpath_eval addr html xpath sub = Return (s, e) ->
  Py.slice (flat_text (traverse (itertext doc))) s e
  = match given sub with
    | Some t => t
    | None => str addr first
    end.
Proof.
  intros Hd Hn Hf H.
  rewrite (call_finish _ _ _ _ _ _ _ _ _ Hd Hn Hf) in H.
  apply finish_returns in H as (gs & ge & Hidx & Hcase).
  destruct (traverse_inv (itertext doc)) as [_ Hall].
  destruct (Hall _ _ Hidx) as (H0 & H1 & H2 & H3). simpl in H0, H1, H2, H3.
  set (flat := flat_text (traverse (itertext doc))) in *.
  destruct (given sub) as [t|].
  - destruct Hcase as (pre & post & Hnt & -> & ->).
    pose proof (len_nonneg pre) as Hp. pose proof (len_nonneg t) as Ht.
    pose proof (len_nonneg post) as Hq.
    assert (Py.len (str addr first) = Py.len pre + Py.len t + Py.len post)
      as Hlen by (rewrite Hnt, !len_app; lia).
    rewrite slice_in_range in H3 by lia.
    rewrite slice_in_range by lia.
    replace (Z.to_nat (gs + Py.len pre))
      with (Z.to_nat gs + String.length pre)%nat by (unfold Py.len; lia).
    replace (Z.to_nat (gs + Py.len pre + Py.len t - (gs + Py.len pre)))
      with (String.length t) by (unfold Py.len; lia).
    rewrite <- (substring_substring flat (Z.to_nat gs) (Z.to_nat (ge - gs)))
      by (unfold Py.len in *; lia).
    rewrite H3, Hnt.
    replace (String.length pre) with (String.length pre + 0)%nat by lia.
    rewrite substring_skip. apply substring_prefix.
  - destruct Hcase as [-> ->]. exact H3.
Qed.

(** C10: the empty string as substring is handled as no substring at all:
    the outcome is that of the call without substring, the substring error
    is not raised for it, and the span recorded for [node_text] is
    returned whole. *)
Theorem empty_substring_is_no_substring (addr : N) (html xpath : string) :
  xpath_to_offsets fromstring xpath_eval addr html xpath (Some "")
  = xpath_to_offsets fromstring xpath_eval addr html xpath None
  /\ (forall doc nodes,
        fromstring html = Return doc ->
        xpath_eval doc xpath = Return nodes ->
        ~ is_SubstringNotFound
            (xpath_to_offsets fromstring xpath_eval addr html xpath (Some "")))
  /\ (forall doc nodes first sp,
        fromstring html = Return doc ->
        xpath_eval doc xpath = Return nodes ->
        getitem0 nodes = Return first ->
        offsets (traverse (itertext doc)) !! str addr first = Some sp ->
        xpath_to_offsets fromstring xpath_eval addr html xpath (Some "") = Return sp).
Proof.
  split; [| split].
  - unfold xpath_to_offsets.
    destruct (fromstring html) as [doc|]; simpl; [| reflexivity].
    destruct (xpath_eval doc xpath) as [nodes|]; simpl; [| reflexivity].
    destruct (falsy nodes); [reflexivity |].
    destruct (getitem0 nodes) as [first|]; simpl; [| reflexivity].
    destruct (dict_get _ _) as [[gs ge]|]; reflexivity.
  - intros doc nodes Hd Hn (t & nt & H). unfold xpath_to_offsets in H.
    rewrite Hd in H. simpl in H. rewrite Hn in H. simpl in H.
    destruct (falsy nodes).
    + apply (no_match_not_substring xpath t nt). congruence.
    + destruct nodes as [[|x l]|[|c r]|f|b]; simpl in H; try discriminate;
        unfold dict_get in H;
        match type of H with context [?m !! ?k] => destruct (m !! k) as [[gs ge]|] end;
        simpl in H; discriminate.
  - intros doc nodes first [gs ge] Hd Hn Hf Hidx.
    rewrite (call_finish _ _ _ _ _ _ _ _ _ Hd Hn Hf).
    unfold finish. now rewrite Hidx.
Qed.

(** The address of the first match plays no part unless that match is an
    element: [str] of a string result is the string itself. *)
Lemma outcome_independent_of_address (addr1 addr2 : N)
    (html xpath : string) (sub : option string) :
  (forall doc nodes e,
     fromstring html = Return doc ->
     xpath_eval doc xpath = Return nodes ->
     getitem0 nodes <> Return (XElement e)) ->
  xpath_to_offsets fromstring xpath_eval addr1 html xpath sub
  = xpath_to_offsets fromstring xpath_eval addr2 html xpath sub.
Proof.
  intros Hne. unfold xpath_to_offsets.
  destruct (fromstring html) as [doc|] eqn:Hd; simpl; [| reflexivity].
  destruct (xpath_eval doc xpath) as [nodes|] eqn:Hn; simpl; [| reflexivity].
  destruct (falsy nodes); [reflexivity |].
  specialize (Hne doc nodes).
  destruct (getitem0 nodes) as [[e|t]|]; simpl; [| reflexivity | reflexivity].
  exfalso. now apply (Hne e).
Qed.

End Properties.

(** ** The outcomes of a call and when each arises *)

Section Outcomes.

Local Arguments String.append !_ _ / : simpl nomatch.

Variable fromstring : string -> result Element.
Variable xpath_eval : Element -> string -> result xpath_value.

Lemma given_truthy (sub : option string) (t : string) :
  given sub = Some t <-> sub = Some t /\ t <> "".
Proof.
  unfold given. destruct sub as [u|].
  - destruct u as [|c u]; simpl; split; try discriminate.
    + intros [H1 H2]. congruence.
    + intros H. split; [exact H | congruence].
    + intros [H _]. exact H.
  - split; [discriminate | intros [H _]; discriminate].
Qed.

(** The three ways the last two steps can end. *)
Lemma finish_cases (index : gmap string (Z * Z)) (node_text : string)
    (sub : option string) :
  (index !! node_text = None
   /\ finish index node_text sub = Raise (LookupFailureError node_text))
  \/ (is_Some (index !! node_text)
      /\ exists t, given sub = Some t /\ ~ Py.occurs t node_text
         /\ finish index node_text sub
            = Raise (SubstringNotFoundError t node_text))
  \/ (is_Some (index !! node_text)
      /\ (forall t, given sub = Some t -> Py.occurs t node_text)
      /\ is_success (finish index node_text sub)).
Proof.
  unfold finish. destruct (index !! node_text) as [[gs ge]|]; [| left; auto].
  right. destruct (given sub) as [t|].
  - destruct (Z.eqb_spec (Py.find node_text t) (-1)) as [Hf|Hf].
    + left. split; [eauto |]. exists t.
      apply find_absent in Hf. auto.
    + right. split; [eauto |]. split; [| eexists; reflexivity].
      intros t' [= <-].
      destruct (find_spec node_text t) as [[Hf' _] | (pre & post & Hs & _)];
        [contradiction |].
      exists pre, post. exact Hs.
  - right. split; [eauto |]. split; [discriminate | eexists; reflexivity].
Qed.

Lemma kinds_exclusive (out : result (Z * Z)) :
  ~ (is_NoMatch out /\ is_LookupFailure out)
  /\ ~ (is_NoMatch out /\ is_SubstringNotFound out)
  /\ ~ (is_LookupFailure out /\ is_SubstringNotFound out)
  /\ (is_success out ->
      ~ (is_NoMatch out \/ is_LookupFailure out \/ is_SubstringNotFound out)).
Proof.
  unfold is_NoMatch, is_LookupFailure, is_SubstringNotFound, is_success.
  repeat split.
  - intros [[x Hx] [k Hk]]. rewrite Hx in Hk. discriminate.
  - intros [[x Hx] (t & nt & Ht)]. rewrite Hx in Ht.
    apply (no_match_not_substring x t nt). congruence.
  - intros [[k Hk] (t & nt & Ht)]. rewrite Hk in Ht. discriminate.
  - intros [sp Hsp] [[x Hx] | [[k Hk] | (t & nt & Ht)]]; congruence.
Qed.

(** Closes a goal whose premise names a first match that the case at hand
    rules out. *)
Ltac by_head :=
  let H := fresh in
  solve [ intros H; discriminate H
        | intros H; decompose [ex and] H;
          repeat match goal with
                 | E : head _ = Some _ |- _ =>
                     simpl in E; first [discriminate E | injection E as <-]
                 | E : is_Some _ |- _ => destruct E
                 end;
          congruence ].

(** C3, as the code has it.  When the parser and the evaluator answer and
    the XPath value is a list, a call ends in exactly one of four ways,
    decided in this order: the no-match error iff the list is empty; else
    the lookup error iff [node_text] is not a key of the index; else the
    substring error iff a non-empty substring was passed that does not
    occur in [node_text]; else a pair is returned. *)
Theorem outcome_classification (addr : N) (html xpath : string)
    (sub : option string) (doc : Element) (items : list xpath_item) :
  fromstring html = Return doc ->
  xpath_eval doc xpath = Return (XList items) ->
  let out := xpath_to_offsets fromstring xpath_eval addr html xpath sub in
  let index := offsets (traverse (itertext doc)) in
  (is_NoMatch out <-> items = nil)
  /\ (is_LookupFailure out <->
      exists first, head items = Some first
        /\ index !! str addr first = None)
  /\ (is_SubstringNotFound out <->
      exists first t, head items = Some first
        /\ is_Some (index !! str addr first)
        /\ sub = Some t /\ t <> "" /\ ~ Py.occurs t (str addr first))
  /\ (is_success out <->
      exists first, head items = Some first
        /\ is_Some (index !! str addr first)
        /\ forall t, sub = Some t -> t <> "" -> Py.occurs t (str addr first))
  /\ (is_success out \/ is_NoMatch out \/ is_LookupFailure out
      \/ is_SubstringNotFound out)
  /\ ~ (is_NoMatch out /\ is_LookupFailure out)
  /\ ~ (is_NoMatch out /\ is_SubstringNotFound out)
  /\ ~ (is_LookupFailure out /\ is_SubstringNotFound out)
  /\ (is_success out ->
      ~ (is_NoMatch out \/ is_LookupFailure out \/ is_SubstringNotFound out)).
Proof.
  intros Hd Hn out index.
  pose proof (kinds_exclusive out) as (X1 & X2 & X3 & X4).
  assert (forall first, head items = Some first ->
            getitem0 (XList items) = Return first) as Hhead
    by (destruct items; simpl; congruence).
  destruct items as [|first rest].
  - assert (out = Raise (NoMatchError xpath)) as Hout.
    { subst out. unfold xpath_to_offsets. rewrite Hd. simpl.
      rewrite Hn. reflexivity. }
    assert (is_NoMatch out) as HNM by (eexists; exact Hout).
    repeat split; try tauto; by_head.
  - assert (out = finish index (str addr first) sub) as Hout
      by (apply (call_finish _ _ _ _ _ _ _ _ _ Hd Hn); reflexivity).
    clearbody out. subst out. simpl head.
    destruct (finish_cases index (str addr first) sub)
      as [[Hidx Hf] | [(Hidx & t & Hg & Hno & Hf) | (Hidx & Hocc & Hf)]].
    + assert (is_LookupFailure (finish index (str addr first) sub)) as HLF
        by (eexists; exact Hf).
      repeat split; try tauto; try by_head.
      intros _. exists first. auto.
    + assert (is_SubstringNotFound (finish index (str addr first) sub)) as HS
        by (do 2 eexists; exact Hf).
      apply given_truthy in Hg as [Hsub Hne].
      repeat split; try tauto; try by_head.
      * intros _. exists first, t. auto.
      * intros (f & [= <-] & _ & Hall). exfalso. apply Hno, Hall; auto.
    + assert (forall u, sub = Some u -> u <> "" -> Py.occurs u (str addr first))
        as Hocc' by (intros u Hsub Hne; apply Hocc, given_truthy; auto).
      repeat split; try tauto; try by_head.
      * intros (f & u & [= <-] & _ & Hsub & Hne & Hno). exfalso. auto.
      * intros _. exists first. auto.
Qed.

End Outcomes.

(** ** The spans the traversal records *)

(** The sum of the lengths of a list of fragments. *)
Definition sum_len (frags : list string) : Z :=
  fold_right (fun s n => Py.len s + n) 0 frags.

Lemma len_join (frags : list string) : Py.len (Py.join frags) = sum_len frags.
Proof.
  induction frags as [|x frags IH]; [reflexivity |].
  simpl. rewrite len_app, IH. reflexivity.
Qed.

Lemma sum_len_nonneg (frags : list string) : 0 <= sum_len frags.
Proof.
  induction frags as [|x frags IH]; simpl; [lia |].
  pose proof (len_nonneg x). lia.
Qed.

(** C7: the spans recorded during the traversal are contiguous.  When
    [elem] is visited after the fragments [pre], the span recorded for it
    starts at the sum of the lengths of [pre] and ends that start plus
    its own length, which is where the next fragment starts; the final
    flattened text is the concatenation of all fragments in order, its
    length is the final position, and the recorded span cuts [elem] out
    of it. *)
Theorem traversal_spans_contiguous (pre post : list string) (elem : string) :
  let before := traverse pre in
  let after := traverse (pre ++ elem :: nil) in
  let final := traverse (pre ++ elem :: post) in
  pos before = sum_len pre
  /\ offsets after !! elem = Some (sum_len pre, sum_len pre + Py.len elem)
  /\ pos after = sum_len pre + Py.len elem
  /\ flat_text after = flat_text before +:+ elem
  /\ flat_text final = Py.join (pre ++ elem :: post)
  /\ pos final = Py.len (flat_text final)
  /\ Py.slice (flat_text final) (sum_len pre) (sum_len pre + Py.len elem)
     = elem.
Proof.
  simpl. rewrite traverse_snoc. simpl.
  rewrite lookup_insert_eq, !traverse_pos, !traverse_flat_text, !len_join.
  repeat split; try reflexivity.
  rewrite join_app. simpl Py.join. rewrite <- app_assoc.
  pose proof (sum_len_nonneg pre). pose proof (len_nonneg elem).
  rewrite slice_prefix by (rewrite ?len_app, ?len_join; lia).
  rewrite <- len_join. apply slice_suffix.
Qed.

(** ** The scenarios of the specification *)

Definition tree_A : Element :=
  Elem "div" None
       (Elem "p" (Some "Hello") nil None :: Elem "p" (Some "World") nil None
        :: nil) None.
Definition tree_D : Element :=
  Elem "div" None (Elem "p" (Some "Hello World") nil None :: nil) None.
Definition tree_F : Element :=
  Elem "div" None
       (Elem "p" (Some "Same") nil None :: Elem "p" (Some "Same") nil None
        :: nil) None.

(** An address as CPython hands them out, and a document whose only text
    is what [str] prints for a [p] element living there. *)
Definition addr0 : N := 0x7f3a5c0d2e80%N.
Definition doc_R : string :=
  "<div><p>&lt;Element p at 0x7f3a5c0d2e80&gt;</p></div>".

Example parse_A : Mini.fromstring doc_A = Return tree_A.
Proof. reflexivity. Qed.
Example parse_D : Mini.fromstring doc_D = Return tree_D.
Proof. reflexivity. Qed.
Example parse_F : Mini.fromstring doc_F = Return tree_F.
Proof. reflexivity. Qed.
Example repr_at_addr0 :
  repr_element addr0 (Elem "p" None nil None) = "<Element p at 0x7f3a5c0d2e80>".
Proof. reflexivity. Qed.

Section Scenarios.

Local Arguments String.append !_ _ / : simpl nomatch.

(** What [str] prints for an element is no fragment of a document whose
    fragments do not start like it. *)
Lemma repr_element_not_in (addr : N) (e : Element) (frags : list string) :
  forallb (fun s => negb (String.prefix "<Element " s)) frags = true ->
  repr_element addr e ∉ frags.
Proof.
  induction frags as [|x frags IH]; simpl; intros H Hin.
  - apply elem_of_nil in Hin. exact Hin.
  - apply andb_prop in H as [Hx Hrest].
    apply elem_of_cons in Hin as [<-|Hin]; [| exact (IH Hrest Hin)].
    assert (String.prefix "<Element " (repr_element addr e) = true) as Hp
      by (apply prefix_app; eexists; unfold repr_element; reflexivity).
    rewrite Hp in Hx. discriminate.
Qed.

(** A path that selects an element ends in the lookup error when no
    fragment starts like the text [str] prints. *)
Lemma element_match_fails (addr : N) (html xpath : string)
    (sub : option string) (doc e : Element) (rest : list xpath_item) :
  Mini.fromstring html = Return doc ->
  Mini.xpath_eval doc xpath = Return (XList (XElement e :: rest)) ->
  forallb (fun s => negb (String.prefix "<Element " s)) (itertext doc) = true ->
  run addr html xpath sub = Raise (LookupFailureError (repr_element addr e)).
Proof.
  intros Hd Hn Hfr. unfold run.
  rewrite (call_finish _ _ addr html xpath sub doc _ (XElement e) Hd Hn)
    by reflexivity.
  unfold finish. simpl str.
  rewrite (proj2 (traverse_lookup_none _ _)); [reflexivity |].
  apply repr_element_not_in, Hfr.
Qed.

End Scenarios.

(** C4 (scenarios A and B), as the code has it.  On
    [<div><p>Hello</p><p>World</p></div>] the text nodes [//p[1]/text()]
    and [//p[2]/text()] have the texts [Hello] and [World] and the spans
    (0, 5) and (5, 10).  The paths [//p[1]] and [//p[2]] select the
    elements, whose [str] is [<Element p at 0x...>]: no fragment, so the
    call ends in the lookup error. *)
Theorem scenario_A_B (addr : N) :
  Mini.xpath_eval tree_A "//p[1]/text()" = Return (XList (XText "Hello" :: nil))
  /\ run addr doc_A "//p[1]/text()" None = Return (0, 5)
  /\ Mini.xpath_eval tree_A "//p[2]/text()" = Return (XList (XText "World" :: nil))
  /\ run addr doc_A "//p[2]/text()" None = Return (5, 10)
  /\ run addr doc_A "//p[1]" None
     = Raise (LookupFailureError
                (repr_element addr (Elem "p" (Some "Hello") nil None)))
  /\ run addr doc_A "//p[2]" None
     = Raise (LookupFailureError
                (repr_element addr (Elem "p" (Some "World") nil None))).
Proof.
  do 4 (split; [reflexivity |]). split.
  - apply (element_match_fails addr doc_A "//p[1]" None tree_A _ nil);
      reflexivity.
  - apply (element_match_fails addr doc_A "//p[2]" None tree_A _ nil);
      reflexivity.
Qed.

(** Scenario A as the specification states it does not hold: the call
    with [//p[1]] does not return (0, 5); it raises the lookup error. *)
Lemma scenario_A_element_lookup_fails :
  run addr0 doc_A "//p[1]" None <> Return (0, 5)
  /\ run addr0 doc_A "//p[1]" None
     = Raise (KeyError "<Element p at 0x7f3a5c0d2e80>")
  /\ run addr0 doc_A "//p[2]" None <> Return (5, 10).
Proof. repeat split; [discriminate | discriminate]. Qed.

(** C1, as the code has it.  The index is keyed by fragment text: when a
    text occurs twice, the span recorded at the first occurrence is
    replaced, and the final entry is the span of the last occurrence.  On
    [<div><p>Same</p><p>Same</p></div>] the entry for [Same] is (4, 8),
    which the call with [//p[1]/text()] returns; with [//p[1]] the match is
    an element and the call ends in the lookup error. *)
Theorem index_keeps_last_occurrence :
  (forall (pre mid post : list string) (t : string),
     t ∉ post ->
     offsets (traverse (pre ++ t :: nil)) !! t
     = Some (sum_len pre, sum_len pre + Py.len t)
     /\ offsets (traverse (pre ++ t :: mid ++ t :: post)) !! t
        = Some (sum_len (pre ++ t :: mid),
                sum_len (pre ++ t :: mid) + Py.len t))
  /\ (forall addr, run addr doc_F "//p[1]/text()" None = Return (4, 8))
  /\ (forall addr, run addr doc_F "//p[1]" None
                   = Raise (LookupFailureError
                              (repr_element addr
                                 (Elem "p" (Some "Same") nil None)))).
Proof.
  split; [| split].
  - intros pre mid post t Hnotin. split.
    + rewrite (traverse_last pre nil t), len_join;
        [reflexivity | apply not_elem_of_nil].
    + replace (pre ++ t :: mid ++ t :: post)
        with ((pre ++ t :: mid) ++ t :: post)
        by (rewrite <- List.app_assoc; reflexivity).
      rewrite (traverse_last _ post t Hnotin), len_join. reflexivity.
  - intros addr. reflexivity.
  - intros addr.
    apply (element_match_fails addr doc_F "//p[1]" None tree_F _ nil);
      reflexivity.
Qed.

Lemma index_keeps_last_occurrence_witness :
  ("Same" ∉ (@nil string))
  /\ offsets (traverse ("Same" :: "Same" :: nil)) !! "Same" = Some (4, 8).
Proof.
  split; [apply not_elem_of_nil |].
  exact (proj2 (proj1 index_keeps_last_occurrence nil nil nil "Same"
                  (not_elem_of_nil "Same"))).
Defined.

(** Scenario F with the numbers of the specification does not hold: the
    second paragraph spans (4, 8), not (5, 9), and the call with [//p[1]]
    returns nothing. *)
Lemma scenario_F_not_5_9 :
  run addr0 doc_F "//p[1]" None <> Return (5, 9)
  /\ run addr0 doc_F "//p[1]/text()" None <> Return (5, 9)
  /\ offsets (traverse (itertext tree_F)) !! "Same" = Some (4, 8).
Proof. repeat split; [discriminate | discriminate]. Qed.

(** ** The properties on the scenarios *)

Lemma span_ordering_witness :
  run addr0 doc_D "//p/text()" (Some "World") = Return (6, 11)
  /\ 0 <= 6 <= 11.
Proof.
  split; [reflexivity |].
  apply (span_ordering Mini.fromstring Mini.xpath_eval addr0 doc_D
           "//p/text()" (Some "World") 6 11).
  reflexivity.
Defined.

Lemma full_span_length_witness :
  run addr0 doc_A "//p[2]/text()" None = Return (5, 10)
  /\ 10 - 5 = Py.len "World".
Proof.
  split; [reflexivity |].
  apply (full_span_length Mini.fromstring Mini.xpath_eval addr0 doc_A
           "//p[2]/text()" tree_A (XList (XText "World" :: nil))
           (XText "World") 5 10); reflexivity.
Defined.

Lemma substring_span_length_witness :
  "World" <> ""
  /\ run addr0 doc_D "//p/text()" (Some "World") = Return (6, 11)
  /\ 11 - 6 = Py.len "World".
Proof.
  split; [discriminate |]. split; [reflexivity |].
  apply (substring_span_length Mini.fromstring Mini.xpath_eval addr0 doc_D
           "//p/text()" "World" 6 11); [discriminate | reflexivity].
Defined.

(** The empty string as substring: the call returns the whole span of
    [Hello], whose length is not that of the substring. *)
Lemma empty_string_keeps_full_span :
  run addr0 doc_A "//p[1]/text()" (Some "") = Return (0, 5)
  /\ Py.occurs "" "Hello"
  /\ 5 - 0 <> Py.len "".
Proof.
  split; [reflexivity |]. split; [| discriminate].
  exists "", "Hello". reflexivity.
Qed.

Lemma result_slices_flat_text_witness :
  run addr0 doc_D "//p/text()" (Some "World") = Return (6, 11)
  /\ Py.slice (flat_text (traverse (itertext tree_D))) 6 11 = "World".
Proof.
  split; [reflexivity |].
  apply (result_slices_flat_text Mini.fromstring Mini.xpath_eval addr0 doc_D
           "//p/text()" (Some "World") tree_D
           (XList (XText "Hello World" :: nil)) (XText "Hello World") 6 11);
    reflexivity.
Defined.

(** The empty string as substring, on a document without repeated
    fragments: the slice at the returned span is [Hello], not the
    substring. *)
Lemma empty_substring_slice :
  NoDup (itertext tree_A)
  /\ run addr0 doc_A "//p[1]/text()" (Some "") = Return (0, 5)
  /\ Py.slice (flat_text (traverse (itertext tree_A))) 0 5 <> "".
Proof.
  split; [| split; [reflexivity | discriminate]].
  apply NoDup_cons. split.
  - intros H. apply elem_of_cons in H as [H|H]; [discriminate |].
    apply elem_of_nil in H. exact H.
  - apply NoDup_singleton.
Qed.

Lemma empty_substring_is_no_substring_witness :
  run addr0 doc_A "//p[1]/text()" (Some "") = run addr0 doc_A "//p[1]/text()" None
  /\ ~ is_SubstringNotFound (run addr0 doc_A "//p[1]/text()" (Some ""))
  /\ run addr0 doc_A "//p[1]/text()" (Some "") = Return (0, 5).
Proof.
  pose proof (empty_substring_is_no_substring Mini.fromstring Mini.xpath_eval
                addr0 doc_A "//p[1]/text()") as (H1 & H2 & H3).
  split; [exact H1 |]. split.
  - apply (H2 tree_A (XList (XText "Hello" :: nil))); reflexivity.
  - apply (H3 tree_A (XList (XText "Hello" :: nil)) (XText "Hello") (0, 5));
      reflexivity.
Defined.

Lemma outcome_independent_of_address_witness :
  run addr0 doc_A "//p[1]/text()" None = run (addr0 + 64) doc_A "//p[1]/text()" None.
Proof.
  apply (outcome_independent_of_address Mini.fromstring Mini.xpath_eval
           addr0 (addr0 + 64) doc_A "//p[1]/text()" None).
  intros doc nodes e Hd Hn.
  assert (doc = tree_A) as -> by (rewrite parse_A in Hd; congruence).
  assert (nodes = XList (XText "Hello" :: nil)) as ->
    by (change (Mini.xpath_eval tree_A "//p[1]/text()")
          with (Return (XList (XText "Hello" :: nil))) in Hn; congruence).
  discriminate.
Defined.

(** Two calls with the same inputs and different outcomes: the only text
    of the document is what [str] prints for a [p] element at [addr0]; when
    the matched element lives there the lookup succeeds, and when it lives
    elsewhere the lookup fails. *)
Lemma element_repr_depends_on_address :
  run addr0 doc_R "//p" None = Return (0, 29)
  /\ run (addr0 + 64) doc_R "//p" None
     = Raise (KeyError "<Element p at 0x7f3a5c0d2ec0>")
  /\ run addr0 doc_R "//p" None <> run (addr0 + 64) doc_R "//p" None.
Proof. split; [reflexivity |]. split; [reflexivity | discriminate]. Qed.

Lemma outcome_classification_witness :
  Mini.fromstring doc_D = Return tree_D
  /\ Mini.xpath_eval tree_D "//p/text()"
     = Return (XList (XText "Hello World" :: nil))
  /\ is_SubstringNotFound (run addr0 doc_D "//p/text()" (Some "Goodbye")).
Proof.
  split; [reflexivity |]. split; [reflexivity |].
  pose proof (outcome_classification Mini.fromstring Mini.xpath_eval addr0
                doc_D "//p/text()" (Some "Goodbye") tree_D
                (XText "Hello World" :: nil) eq_refl eq_refl)
    as (_ & _ & H & _).
  apply H. exists (XText "Hello World"), "Goodbye".
  split; [reflexivity |]. split; [eexists; reflexivity |].
  split; [reflexivity |]. split; [discriminate |].
  apply find_absent. reflexivity.
Defined.

(** The substring error is not raised whenever the substring is missing
    from [node_text]: for the element match [//p] the lookup fails first.
    Outside the three errors, the library's own exceptions and the
    [TypeError] of subscripting a bool are further outcomes. *)
Lemma lookup_failure_masks_substring_error :
  ~ (is_SubstringNotFound (run addr0 doc_D "//p" (Some "Goodbye"))
     <-> ~ Py.occurs "Goodbye"
             (str addr0 (XElement (Elem "p" (Some "Hello World") nil None))))
  /\ run addr0 doc_D "//p" (Some "Goodbye")
     = Raise (LookupFailureError "<Element p at 0x7f3a5c0d2e80>")
  /\ run addr0 "" "//p" None = Raise (ParserError "Document is empty")
  /\ run addr0 doc_D "boolean(//p)" None
     = Raise (TypeError "'bool' object is not subscriptable").
Proof.
  split; [| repeat split].
  intros [_ H].
  assert (~ Py.occurs "Goodbye"
            (str addr0 (XElement (Elem "p" (Some "Hello World") nil None))))
    as Hno by (apply find_absent; reflexivity).
  destruct (H Hno) as (t & nt & Ht). discriminate.
Qed.

(** ** Further properties of the traversal *)

(** X1.  The keys of the dictionary are exactly the fragments the traversal
    visited. *)
Theorem index_keys_are_fragments (frags : list string) (key : string) :
  is_Some (offsets (traverse frags) !! key) <-> key ∈ frags.
Proof.
  split.
  - intros [sp Hsp]. destruct (decide (key ∈ frags)) as [Hin|Hnotin];
      [exact Hin |].
    apply traverse_lookup_none in Hnotin. congruence.
  - intros Hin. apply (loop_lookup_some frags loop_init key Hin).
Qed.

Lemma index_entry_ok (frags : list string) (key : string) (s e : Z) :
  offsets (traverse frags) !! key = Some (s, e) ->
  0 <= s /\ e = s + Py.len key
  /\ e <= Py.len (flat_text (traverse frags))
  /\ Py.slice (flat_text (traverse frags)) s e = key.
Proof.
  intros H. destruct (traverse_inv frags) as [_ Hall]. exact (Hall key (s, e) H).
Qed.

(** X2.  Every entry of the dictionary is an occurrence of its key in the
    flattened text: the span starts at a non-negative offset, has the
    length of the key, ends inside the text, and slicing the text at the
    span gives the key back. *)
Theorem index_entries_are_occurrences (frags : list string) (key : string)
    (s e : Z) :
  offsets (traverse frags) !! key = Some (s, e) ->
  0 <= s /\ e = s + Py.len key
  /\ e <= Py.len (flat_text (traverse frags))
  /\ Py.slice (flat_text (traverse frags)) s e = key.
Proof.
  intros H. exact (index_entry_ok frags key s e H).
Qed.

Lemma index_entries_are_occurrences_witness :
  offsets (traverse ("ab" :: "c" :: "ab" :: nil)) !! "ab" = Some (3, 5)
  /\ Py.slice (flat_text (traverse ("ab" :: "c" :: "ab" :: nil))) 3 5 = "ab".
Proof.
  split; [reflexivity |].
  apply (index_entries_are_occurrences ("ab" :: "c" :: "ab" :: nil) "ab" 3 5).
  reflexivity.
Defined.

(** ** Further properties of [find] *)

(** [find] returns the first occurrence: no occurrence starts before the
    index it returns. *)
Lemma find_from_first (s sub pre post : string) (i : Z) :
  s = pre +:+ sub +:+ post ->
  Py.find_from i s sub <= i + Py.len pre.
Proof.
  revert i pre. induction s as [|c s IH]; intros i pre Hs;
    rewrite find_from_unfold.
  - assert (String.prefix sub "" = true) as ->.
    { apply prefix_app. destruct pre; [| discriminate].
      exists post. exact Hs. }
    pose proof (len_nonneg pre). lia.
  - destruct (String.prefix sub (String c s)) eqn:Hp.
    + pose proof (len_nonneg pre). lia.
    + destruct pre as [|a pre].
      * assert (String.prefix sub (String c s) = true) as Hq
          by (apply prefix_app; exists post; exact Hs).
        congruence.
      * assert (s = pre +:+ sub +:+ post) as Hs'
          by (change (String a pre +:+ sub +:+ post)
                with (String a (pre +:+ sub +:+ post)) in Hs; congruence).
        pose proof (IH (i + 1) pre Hs') as Hle.
        unfold Py.len in *. simpl String.length. lia.
Qed.

(** ** Further properties of a call *)

Section Further.

Variable fromstring : string -> result Element.
Variable xpath_eval : Element -> string -> result xpath_value.

(** X3.  A number or a boolean as XPath value never yields a span: zero and
    false are reported as no match, anything else fails when it is
    subscripted. *)
Theorem scalar_value_never_returns (addr : N) (html xpath : string)
    (sub : option string) (doc : Element) (v : xpath_value) :
  fromstring html = Return doc ->
  xpath_eval doc xpath = Return v ->
  (exists f, v = XNumber f) \/ (exists b, v = XBoolean b) ->
  (falsy v = true
   /\ xpath_to_offsets fromstring xpath_eval addr html xpath sub
      = Raise (NoMatchError xpath))
  \/ (falsy v = false
      /\ exists msg, xpath_to_offsets fromstring xpath_eval addr html xpath sub
                     = Raise (TypeError msg)).
Proof.
  intros Hd Hn Hv. unfold xpath_to_offsets. rewrite Hd. simpl.
  rewrite Hn. simpl.
  destruct Hv as [[f ->] | [b ->]].
  - destruct f; simpl; eauto.
  - destruct b; simpl; eauto.
Qed.

(** X4.  A bare string as XPath value is subscripted like any Python string:
    only its first character is looked up.  When that character is no
    fragment the lookup error names it, and a span returned without
    substring has length one. *)
Theorem string_value_uses_first_character (addr : N) (html xpath : string)
    (sub : option string) (doc : Element) (c : ascii) (rest : string) :
  fromstring html = Return doc ->
  xpath_eval doc xpath = Return (XString (String c rest)) ->
  (String c "" ∉ itertext doc ->
   xpath_to_offsets fromstring xpath_eval addr html xpath sub
   = Raise (LookupFailureError (String c "")))
  /\ (forall s e,
        xpath_to_offsets fromstring xpath_eval addr html xpath None
        = Return (s, e) ->
        e - s = 1).
Proof.
  intros Hd Hn. split.
  - intros Hnotin.
    rewrite (call_finish _ _ addr html xpath sub doc _
               (XText (String c "")) Hd Hn) by reflexivity.
    unfold finish. simpl str.
    apply traverse_lookup_none in Hnotin. rewrite Hnotin. reflexivity.
  - intros s e H.
    rewrite (call_finish _ _ addr html xpath None doc _
               (XText (String c "")) Hd Hn) in H by reflexivity.
    apply finish_returns in H as (gs & ge & Hidx & [-> ->]).
    destruct (index_entry_ok _ _ _ _ Hidx) as (_ & H1 & _).
    simpl str in H1. rewrite H1. unfold Py.len. simpl. lia.
Qed.

(** X5.  Only the first match is used: two expressions whose match lists start
    with the same item have the same outcome. *)
Theorem only_first_match_matters (addr : N) (html xpath1 xpath2 : string)
    (sub : option string) (doc : Element) (first : xpath_item)
    (rest1 rest2 : list xpath_item) :
  fromstring html = Return doc ->
  xpath_eval doc xpath1 = Return (XList (first :: rest1)) ->
  xpath_eval doc xpath2 = Return (XList (first :: rest2)) ->
  xpath_to_offsets fromstring xpath_eval addr html xpath1 sub
  = xpath_to_offsets fromstring xpath_eval addr html xpath2 sub.
Proof.
  intros Hd H1 H2.
  rewrite (call_finish _ _ addr html xpath1 sub doc _ first Hd H1)
    by reflexivity.
  rewrite (call_finish _ _ addr html xpath2 sub doc _ first Hd H2)
    by reflexivity.
  reflexivity.
Qed.

(** X6.  The substring is consulted last: an error of the call without
    substring is the error of the call with any substring. *)
Theorem early_errors_ignore_substring (addr : N) (html xpath : string)
    (sub : option string) (err : exn) :
  xpath_to_offsets fromstring xpath_eval addr html xpath None = Raise err ->
  xpath_to_offsets fromstring xpath_eval addr html xpath sub = Raise err.
Proof.
  unfold xpath_to_offsets.
  destruct (fromstring html) as [doc|]; simpl; [| auto].
  destruct (xpath_eval doc xpath) as [nodes|]; simpl; [| auto].
  destruct (falsy nodes); [auto |].
  destruct (getitem0 nodes) as [first|]; simpl; [| auto].
  unfold dict_get.
  destruct (offsets (traverse (itertext doc)) !! str addr first)
    as [[gs ge]|]; simpl; [discriminate | auto].
Qed.

(** X7.  Narrowing stays inside the node: when the call with a substring
    returns [(start, end)], the call without substring returns a span
    that contains it. *)
Theorem narrowed_span_inside_full_span (addr : N) (html xpath sub : string)
    (s e : Z) :
  xpath_to_offsets fromstring xpath_eval addr html xpath (Some sub)
  = Return (s, e) ->
  exists gs ge,
    xpath_to_offsets fromstring xpath_eval addr html xpath None
    = Return (gs, ge)
    /\ gs <= s /\ s <= e /\ e <= ge.
Proof.
  intros H.
  destruct (call_returns _ _ _ _ _ _ _ H)
    as (doc & nodes & first & Hd & Hn & Hf).
  rewrite (call_finish _ _ _ _ _ _ _ _ _ Hd Hn Hf) in H.
  apply finish_returns in H as (gs & ge & Hidx & Hcase).
  exists gs, ge. split.
  - rewrite (call_finish _ _ _ _ _ _ _ _ _ Hd Hn Hf).
    unfold finish. rewrite Hidx. reflexivity.
  - destruct (index_entry_ok _ _ _ _ Hidx) as (H0 & H1 & _).
    destruct (given (Some sub)) as [t|].
    + destruct Hcase as (pre & post & Hnt & -> & ->).
      rewrite Hnt, !len_app in H1.
      pose proof (len_nonneg pre). pose proof (len_nonneg t).
      pose proof (len_nonneg post). lia.
    + destruct Hcase as [-> ->]. pose proof (len_nonneg (str addr first)). lia.
Qed.

(** X8.  The narrowed span is that of the first occurrence of the substring in
    [node_text]: it starts at the recorded start plus the length of what
    precedes the substring, and no occurrence starts earlier. *)
Theorem substring_found_at_first_occurrence (addr : N)
    (html xpath sub : string) (doc : Element) (nodes : xpath_value)
    (first : xpath_item) (s e : Z) :
  sub <> "" ->
  fromstring html = Return doc ->
  xpath_eval doc xpath = Return nodes ->
  getitem0 nodes = Return first ->
  xpath_to_offsets fromstring xpath_eval addr html xpath (Some sub)
  = Return (s, e) ->
  exists gs ge pre0 post0,
    offsets (traverse (itertext doc)) !! str addr first = Some (gs, ge)
    /\ str addr first = pre0 +:+ sub +:+ post0
    /\ s = gs + Py.len pre0
    /\ forall pre post, str addr first = pre +:+ sub +:+ post ->
                        Py.len pre0 <= Py.len pre.
Proof.
  intros Hne Hd Hn Hf H.
  rewrite (call_finish _ _ _ _ _ _ _ _ _ Hd Hn Hf) in H.
  unfold finish in H.
  destruct (offsets (traverse (itertext doc)) !! str addr first)
    as [[gs ge]|]; [| discriminate].
  apply truthy_nonempty in Hne. simpl in H. rewrite Hne in H.
  destruct (Z.eqb_spec (Py.find (str addr first) sub) (-1)); [discriminate |].
  destruct (find_spec (str addr first) sub)
    as [[Hf' _] | (pre0 & post0 & Hs & Hfind)]; [contradiction |].
  injection H as <- <-.
  exists gs, ge, pre0, post0. repeat split; auto; [lia |].
  intros pre post Hocc.
  pose proof (find_from_first _ _ _ _ 0 Hocc) as Hle.
  unfold Py.find in Hfind. lia.
Qed.

(** X9.  A returned span ends inside the flattened text. *)
Theorem span_within_flat_text (addr : N) (html xpath : string)
    (sub : option string) (doc : Element) (s e : Z) :
  fromstring html = Return doc ->
  xpath_to_offsets fromstring xpath_eval addr html xpath sub = Return (s, e) ->
  e <= Py.len (flat_text (traverse (itertext doc)))
  /\ Py.len (flat_text (traverse (itertext doc))) = sum_len (itertext doc).
Proof.
  intros Hd H. split; [| rewrite traverse_flat_text; apply len_join].
  destruct (call_returns _ _ _ _ _ _ _ H)
    as (doc' & nodes & first & Hd' & Hn & Hf).
  assert (doc' = doc) as -> by congruence.
  rewrite (call_finish _ _ _ _ _ _ _ _ _ Hd Hn Hf) in H.
  apply finish_returns in H as (gs & ge & Hidx & Hcase).
  destruct (index_entry_ok _ _ _ _ Hidx) as (H0 & H1 & H2 & _).
  destruct (given sub) as [t|].
  - destruct Hcase as (pre & post & Hnt & -> & ->).
    rewrite Hnt, !len_app in H1. pose proof (len_nonneg post). lia.
  - destruct Hcase as [-> ->]. exact H2.
Qed.

(** X10.  Without substring the call returns the span of the last fragment that
    equals [node_text], whichever node the expression matched. *)
Theorem call_returns_last_fragment_span (addr : N) (html xpath : string)
    (doc : Element) (nodes : xpath_value) (first : xpath_item)
    (pre post : list string) :
  fromstring html = Return doc ->
  xpath_eval doc xpath = Return nodes ->
  getitem0 nodes = Return first ->
  itertext doc = pre ++ str addr first :: post ->
  str addr first ∉ post ->
  xpath_to_offsets fromstring xpath_eval addr html xpath None
  = Return (sum_len pre, sum_len pre + Py.len (str addr first)).
Proof.
  intros Hd Hn Hf Hfr Hlast.
  rewrite (call_finish _ _ _ _ _ _ _ _ _ Hd Hn Hf).
  unfold finish. rewrite Hfr, (traverse_last pre post _ Hlast), len_join.
  reflexivity.
Qed.

End Further.

(** ** The further properties on concrete calls *)

(** [string(...)] around a path of the fragment: the string value of the
    first selected node, the concatenated text below an element or the
    text of a text node, and the empty string when nothing is selected.
    Every other expression is left to [Mini.xpath_eval]. *)
Definition string_value (item : xpath_item) : string :=
  match item with
  | XElement e => Py.join (itertext e)
  | XText s => s
  end.

Definition xpath_eval_strings (doc : Element) (xpath : string)
  : result xpath_value :=
  match Mini.strip_prefix "string(" xpath with
  | Some r =>
      match Mini.strip_last ")" r ≫= Mini.parse_path with
      | Some p =>
          Return (XString match Mini.select p doc with
                          | item :: _ => string_value item
                          | nil => EmptyString
                          end)
      | None => Raise (XPathEvalError Mini.outside_fragment)
      end
  | None => Mini.xpath_eval doc xpath
  end.

Definition doc_H : string := "<div><p>H</p><p>Hello</p></div>".
Definition tree_H : Element :=
  Elem "div" None
       (Elem "p" (Some "H") nil None :: Elem "p" (Some "Hello") nil None
        :: nil) None.
Definition doc_B : string := "<div><p>abcabc</p></div>".
Definition tree_B : Element :=
  Elem "div" None (Elem "p" (Some "abcabc") nil None :: nil) None.

Lemma scalar_value_never_returns_witness :
  Mini.xpath_eval tree_D "boolean(//p)" = Return (XBoolean true)
  /\ exists msg, run addr0 doc_D "boolean(//p)" (Some "World")
                 = Raise (TypeError msg).
Proof.
  split; [reflexivity |].
  destruct (scalar_value_never_returns Mini.fromstring Mini.xpath_eval addr0
              doc_D "boolean(//p)" (Some "World") tree_D (XBoolean true)
              eq_refl eq_refl (or_intror (ex_intro _ true eq_refl)))
    as [[Hf _] | [_ H]]; [discriminate Hf | exact H].
Defined.

Lemma string_value_uses_first_character_witness :
  xpath_eval_strings tree_H "string(//p[2])" = Return (XString "Hello")
  /\ xpath_to_offsets Mini.fromstring xpath_eval_strings addr0 doc_H
       "string(//p[2])" None = Return (0, 1)
  /\ 1 - 0 = 1.
Proof.
  split; [reflexivity |]. split; [reflexivity |].
  apply (proj2 (string_value_uses_first_character Mini.fromstring
                  xpath_eval_strings addr0 doc_H "string(//p[2])" None tree_H
                  "H" "ello" eq_refl eq_refl) 0 1).
  reflexivity.
Defined.

Lemma only_first_match_matters_witness :
  Mini.xpath_eval tree_A "//p[1]/text()" = Return (XList (XText "Hello" :: nil))
  /\ Mini.xpath_eval tree_A "//p/text()"
     = Return (XList (XText "Hello" :: XText "World" :: nil))
  /\ run addr0 doc_A "//p[1]/text()" (Some "llo")
     = run addr0 doc_A "//p/text()" (Some "llo").
Proof.
  split; [reflexivity |]. split; [reflexivity |].
  apply (only_first_match_matters Mini.fromstring Mini.xpath_eval addr0 doc_A
           "//p[1]/text()" "//p/text()" (Some "llo") tree_A (XText "Hello")
           nil (XText "World" :: nil)); reflexivity.
Defined.

Lemma early_errors_ignore_substring_witness :
  run addr0 doc_D "//p" None
  = Raise (KeyError "<Element p at 0x7f3a5c0d2e80>")
  /\ run addr0 doc_D "//p" (Some "World")
     = Raise (KeyError "<Element p at 0x7f3a5c0d2e80>").
Proof.
  split; [reflexivity |].
  apply (early_errors_ignore_substring Mini.fromstring Mini.xpath_eval addr0
           doc_D "//p" (Some "World")).
  reflexivity.
Defined.

Lemma narrowed_span_inside_full_span_witness :
  run addr0 doc_D "//p/text()" (Some "World") = Return (6, 11)
  /\ exists gs ge, run addr0 doc_D "//p/text()" None = Return (gs, ge)
                   /\ gs <= 6 /\ 6 <= 11 /\ 11 <= ge.
Proof.
  split; [reflexivity |].
  apply (narrowed_span_inside_full_span Mini.fromstring Mini.xpath_eval addr0
           doc_D "//p/text()" "World" 6 11).
  reflexivity.
Defined.

Lemma substring_found_at_first_occurrence_witness :
  run addr0 doc_B "//p/text()" (Some "bc") = Return (1, 3)
  /\ exists gs ge pre0 post0,
       offsets (traverse (itertext tree_B)) !! "abcabc" = Some (gs, ge)
       /\ "abcabc" = pre0 +:+ "bc" +:+ post0
       /\ 1 = gs + Py.len pre0
       /\ forall pre post, "abcabc" = pre +:+ "bc" +:+ post ->
                           Py.len pre0 <= Py.len pre.
Proof.
  split; [reflexivity |].
  apply (substring_found_at_first_occurrence Mini.fromstring Mini.xpath_eval
           addr0 doc_B "//p/text()" "bc" tree_B
           (XList (XText "abcabc" :: nil)) (XText "abcabc") 1 3);
    [discriminate | reflexivity..].
Defined.

Lemma span_within_flat_text_witness :
  run addr0 doc_D "//p/text()" (Some "World") = Return (6, 11)
  /\ 11 <= Py.len (flat_text (traverse (itertext tree_D))).
Proof.
  split; [reflexivity |].
  apply (span_within_flat_text Mini.fromstring Mini.xpath_eval addr0 doc_D
           "//p/text()" (Some "World") tree_D 6 11); reflexivity.
Defined.

Lemma call_returns_last_fragment_span_witness :
  itertext tree_F = ("Same" :: nil) ++ "Same" :: nil
  /\ run addr0 doc_F "//p[1]/text()" None = Return (4, 8).
Proof.
  split; [reflexivity |].
  apply (call_returns_last_fragment_span Mini.fromstring Mini.xpath_eval addr0
           doc_F "//p[1]/text()" tree_F (XList (XText "Same" :: nil))
           (XText "Same") ("Same" :: nil) nil);
    [reflexivity.. | apply not_elem_of_nil].
Defined.

Lemma index_keys_are_fragments_witness :
  is_Some (offsets (traverse ("ab" :: "c" :: "ab" :: nil)) !! "c")
  /\ "c" ∈ "ab" :: "c" :: "ab" :: nil.
Proof.
  split; [eexists; reflexivity |].
  apply (proj1 (index_keys_are_fragments ("ab" :: "c" :: "ab" :: nil) "c")).
  eexists; reflexivity.
Defined.

(** ** Determinism and the address of the first match *)

Section Addresses.

Local Arguments String.append !_ _ / : simpl nomatch.

Lemma append_inv_head (p a b : string) : p +:+ a = p +:+ b -> a = b.
Proof.
  induction p as [|c p IH]; simpl; intros H; [exact H |].
  apply IH. congruence.
Qed.

Lemma append_inv_tail (a b t : string) : a +:+ t = b +:+ t -> a = b.
Proof.
  revert b. induction a as [|c a IH]; intros b H.
  - destruct b as [|d b]; [reflexivity |].
    apply (f_equal String.length) in H. rewrite length_app in H.
    simpl in H. rewrite length_app in H. lia.
  - destruct b as [|d b].
    + apply (f_equal String.length) in H. rewrite length_app in H.
      simpl in H. lia.
    + simpl in H. injection H as -> H. f_equal. apply IH, H.
Qed.

(** [str] of an element shows its address and nothing else of the heap:
    two addresses give the same text only when they are equal. *)
Lemma repr_element_inj (addr1 addr2 : N) (e : Element) :
  repr_element addr1 e = repr_element addr2 e -> addr1 = addr2.
Proof.
  unfold repr_element. intros H.
  apply (append_inv_head "<Element ") in H.
  apply (append_inv_head (tag_of e)) in H.
  apply (append_inv_head " at ") in H.
  apply append_inv_tail in H.
  rewrite <- (HexString.to_N_of_N addr1), <- (HexString.to_N_of_N addr2).
  now rewrite H.
Qed.

Lemma substring_error_inj (t k1 k2 : string) :
  SubstringNotFoundError t k1 = SubstringNotFoundError t k2 -> k1 = k2.
Proof.
  unfold SubstringNotFoundError. intros H0.
  assert ("Substring '" +:+ t +:+ "' not found in node '" +:+ k1 +:+ "'"
          = "Substring '" +:+ t +:+ "' not found in node '" +:+ k2 +:+ "'")
    as H by congruence.
  apply (append_inv_head "Substring '") in H.
  apply (append_inv_head t) in H.
  apply (append_inv_head "' not found in node '") in H.
  apply append_inv_tail in H. exact H.
Qed.

(** The spans of two different keys do not overlap. *)
Definition spans_disjoint (index : gmap string (Z * Z)) : Prop :=
  forall k1 k2 s1 e1 s2 e2,
    k1 <> k2 ->
    index !! k1 = Some (s1, e1) ->
    index !! k2 = Some (s2, e2) ->
    e1 <= s2 \/ e2 <= s1.

Lemma loop_body_disjoint (st : loop_state) (elem : string) :
  index_inv st -> spans_disjoint (offsets st) ->
  spans_disjoint (offsets (loop_body st elem)).
Proof.
  intros [Hpos Hall] Hdis k1 k2 s1 e1 s2 e2 Hne H1 H2. simpl in H1, H2.
  destruct (decide (elem = k1)) as [->|Hk1].
  - rewrite lookup_insert_eq in H1. injection H1 as <- <-.
    rewrite lookup_insert_ne in H2 by exact Hne.
    destruct (Hall _ _ H2) as (_ & _ & Hle & _). simpl in Hle. right. lia.
  - rewrite lookup_insert_ne in H1 by exact Hk1.
    destruct (decide (elem = k2)) as [->|Hk2].
    + rewrite lookup_insert_eq in H2. injection H2 as <- <-.
      destruct (Hall _ _ H1) as (_ & _ & Hle & _). simpl in Hle. left. lia.
    + rewrite lookup_insert_ne in H2 by exact Hk2.
      exact (Hdis k1 k2 s1 e1 s2 e2 Hne H1 H2).
Qed.

Lemma loop_disjoint (frags : list string) (st : loop_state) :
  index_inv st -> spans_disjoint (offsets st) ->
  spans_disjoint (offsets (fold_left loop_body frags st)).
Proof.
  revert st. induction frags as [|x frags IH]; intros st Hinv Hdis; simpl.
  - exact Hdis.
  - apply IH; [apply loop_body_inv, Hinv | apply loop_body_disjoint; assumption].
Qed.

Lemma traverse_disjoint (frags : list string) :
  spans_disjoint (offsets (traverse frags)).
Proof.
  apply loop_disjoint; [apply loop_init_inv |].
  intros k1 k2 s1 e1 s2 e2 _ H. simpl in H. rewrite lookup_empty in H.
  discriminate.
Qed.

(** The outcome of the last two steps tells [node_text]: two different
    texts never end the same way, be it in the key of the lookup error, in
    the message of the substring error or in the span returned. *)
Lemma finish_tells_node_text (frags : list string) (k1 k2 : string)
    (sub : option string) :
  finish (offsets (traverse frags)) k1 sub
  = finish (offsets (traverse frags)) k2 sub ->
  k1 = k2.
Proof.
  unfold finish. intros H.
  destruct (offsets (traverse frags) !! k1) as [[gs1 ge1]|] eqn:H1;
    destruct (offsets (traverse frags) !! k2) as [[gs2 ge2]|] eqn:H2.
  - destruct (index_entry_ok _ _ _ _ H1) as (A1 & B1 & C1 & D1).
    destruct (index_entry_ok _ _ _ _ H2) as (A2 & B2 & C2 & D2).
    destruct (given sub) as [t|] eqn:Hg.
    + destruct (Z.eqb_spec (Py.find k1 t) (-1)) as [F1|F1];
        destruct (Z.eqb_spec (Py.find k2 t) (-1)) as [F2|F2];
        try discriminate.
      * apply (substring_error_inj t). congruence.
      * injection H as Hs He.
        destruct (find_spec k1 t) as [[F _]|(p1 & q1 & K1 & L1)];
          [contradiction |].
        destruct (find_spec k2 t) as [[F _]|(p2 & q2 & K2 & L2)];
          [contradiction |].
        destruct (decide (k1 = k2)) as [Heq|Hne]; [exact Heq | exfalso].
        assert (0 < Py.len t) as Ht.
        { apply given_truthy in Hg as [_ Hne']. destruct t; [congruence |].
          unfold Py.len. simpl. lia. }
        pose proof (len_nonneg p1). pose proof (len_nonneg q1).
        pose proof (len_nonneg p2). pose proof (len_nonneg q2).
        rewrite K1, !len_app in B1. rewrite K2, !len_app in B2.
        destruct (traverse_disjoint frags k1 k2 _ _ _ _ Hne H1 H2); lia.
    + injection H as -> ->. congruence.
  - destruct (given sub); [destruct (_ =? _) |]; discriminate.
  - destruct (given sub); [destruct (_ =? _) |]; discriminate.
  - unfold LookupFailureError in H. congruence.
Qed.

Variable fromstring : string -> result Element.
Variable xpath_eval : Element -> string -> result xpath_value.

(** C9 (P5, determinism), as the code has it.  Two calls with identical
    inputs [(html_string, xpath, substring)] have identical outcomes
    exactly when the first match is not an element or the matched
    element's Python object has the same address in both calls.  For a
    string result [str] is the string and the address plays no part; for
    an element [str] is the repr with the address, and two addresses
    always show: in the key of the lookup error, in the node text of the
    substring error, or in the span returned. *)
Theorem same_outcome_iff_same_address (addr1 addr2 : N)
    (html xpath : string) (sub : option string) :
  xpath_to_offsets fromstring xpath_eval addr1 html xpath sub
  = xpath_to_offsets fromstring xpath_eval addr2 html xpath sub
  <-> (addr1 = addr2
       \/ forall doc nodes e,
            fromstring html = Return doc ->
            xpath_eval doc xpath = Return nodes ->
            getitem0 nodes <> Return (XElement e)).
Proof.
  split.
  - intros Heq. destruct (decide (addr1 = addr2)) as [Ha|Ha]; [left; exact Ha |].
    right. intros doc nodes e Hd Hn Hf. apply Ha.
    rewrite (call_finish _ _ addr1 _ _ _ _ _ _ Hd Hn Hf) in Heq.
    rewrite (call_finish _ _ addr2 _ _ _ _ _ _ Hd Hn Hf) in Heq.
    apply finish_tells_node_text in Heq.
    apply (repr_element_inj addr1 addr2 e Heq).
  - intros [-> | Hne]; [reflexivity |].
    apply outcome_independent_of_address, Hne.
Qed.

End Addresses.

(** On the document whose only text is the repr of a [p] element at
    [addr0], the outcomes at [addr0] and at another address differ, and the
    theorem tells the addresses apart from that. *)
Lemma same_outcome_iff_same_address_witness :
  run addr0 doc_A "//p[1]/text()" (Some "llo")
  = run (addr0 + 64) doc_A "//p[1]/text()" (Some "llo")
  /\ (run addr0 doc_R "//p" None = run (addr0 + 64) doc_R "//p" None ->
      addr0 = (addr0 + 64)%N).
Proof.
  split.
  - apply (proj2 (same_outcome_iff_same_address Mini.fromstring
                    Mini.xpath_eval addr0 (addr0 + 64) doc_A "//p[1]/text()"
                    (Some "llo"))).
    right. intros doc nodes e Hd Hn.
    assert (doc = tree_A) as -> by (rewrite parse_A in Hd; congruence).
    assert (nodes = XList (XText "Hello" :: nil)) as ->
      by (change (Mini.xpath_eval tree_A "//p[1]/text()")
            with (Return (XList (XText "Hello" :: nil))) in Hn; congruence).
    discriminate.
  - intros Heq.
    destruct (proj1 (same_outcome_iff_same_address Mini.fromstring
                       Mini.xpath_eval addr0 (addr0 + 64) doc_R "//p" None)
                Heq) as [Ha | Hne]; [exact Ha |].
    exfalso.
    apply (Hne (Elem "div" None
                  (Elem "p" (Some "<Element p at 0x7f3a5c0d2e80>") nil None
                   :: nil) None)
               (XList (XElement
                  (Elem "p" (Some "<Element p at 0x7f3a5c0d2e80>") nil None)
                  :: nil))
               (Elem "p" (Some "<Element p at 0x7f3a5c0d2e80>") nil None));
      reflexivity.
Defined.
